(** * marbleStorage: a shallow embedding of [marbleStorage.py]

    The script derives the dimensions of a serpentine marble track from a
    block of module-level parameters, builds the centre-line wire of the
    track, sweeps a tube along it, and carves tube and windows out of a
    two-part housing.

    Numbers.  The script computes with Python numbers.  Its arithmetic is
    kept abstract in the class [Number], which is instantiated twice:
    with binary64 floats (what the interpreter runs) and with exact
    rationals (what the formulas mean).  Facts that hold because two names
    denote the same expression are proved for every instance.

    Geometry kernel.  CadQuery is an external collaborator.  The solids it
    would build are represented by the terms of the calls made ([Solid]);
    what only the kernel can answer (a bounding box, whether a fillet is
    feasible) is an operation of the class [Kernel].

    Exceptions.  A refused fillet is the one failure of the kernel that is
    modelled.  The other calls can raise as well ([makeLine] between two
    equal points, a sweep, a box without volume, a union, a cut) and then
    abort the script; here they are taken to go through.  A result of a
    function below is therefore what the script builds in a run that none
    of those calls aborts. *)

From Stdlib Require Import ZArith QArith Qabs List Bool Lia Lqa.
From Stdlib Require Import PrimFloat SpecFloat FloatOps.
Import ListNotations.

Set Implicit Arguments.

(** ** Numbers *)

Declare Scope num_scope.
Delimit Scope num_scope with num.

(** [of_int z], written [$z], is a Python [int] used as an operand;
    [lit n d] is the decimal literal of value [n/d] ([lit 13 10] is [1.3]). *)
Class Number (T : Type) : Type := {
  of_int : Z -> T;
  lit : Z -> positive -> T;
  add : T -> T -> T;
  sub : T -> T -> T;
  mul : T -> T -> T;
  div : T -> T -> T;
  neg : T -> T
}.

Arguments of_int {T _} z%_Z.

Infix "+" := add : num_scope.
Infix "-" := sub : num_scope.
Infix "*" := mul : num_scope.
Infix "/" := div : num_scope.
Notation "- x" := (neg x) : num_scope.
Notation "$ z" := (of_int z) (at level 1, format "$ z") : num_scope.

(** Exact rationals. *)
#[export] Instance Number_Q : Number Q := {
  of_int := inject_Z;
  lit := Qmake;
  add := Qplus;
  sub := Qminus;
  mul := Qmult;
  div := Qdiv;
  neg := Qopp
}.

(** binary64, rounding to nearest even.  An [int] operand is converted as
    Python converts it (beyond the range of a double Python raises
    [OverflowError], where [float_of_int] gives an infinity); a decimal
    literal is the double nearest to its value, which is what the correctly
    rounded quotient of its numerator and denominator is. *)
Definition float_of_int (z : Z) : float :=
  SF2Prim (binary_normalize prec emax z 0 false).

#[export] Instance Number_float : Number float := {
  of_int := float_of_int;
  lit := fun n d => PrimFloat.div (float_of_int n) (float_of_int (Zpos d));
  add := PrimFloat.add;
  sub := PrimFloat.sub;
  mul := PrimFloat.mul;
  div := PrimFloat.div;
  neg := PrimFloat.opp
}.

(** ** Parameters and derived values *)

Record Params (T : Type) : Type := mkParams {
  marble_radius : T;
  clearance : T;
  marbles_per_layer : Z;
  slope : T;
  turn_factor : T;
  outlet_factor : T;
  wall_thickness : T;
  enable_fillet : bool;
  fillet_radius : T;
  enable_windows : bool;
  window_height_factor : T;
  window_margin_factor : T
}.

(** ** Points, edges and wires *)

Record Vector (T : Type) : Type := vec { vx : T; vy : T; vz : T }.

(** [cq.Edge.makeLine] and [cq.Edge.makeSpline]: a spline interpolates its
    points in order, with one tangent per point. *)
Inductive Edge (T : Type) : Type :=
| makeLine (p q : Vector T)
| makeSpline (pts : list (Vector T)) (tangents : list (Vector T)).

Definition last_error {A : Type} (l : list A) : option A :=
  match rev l with
  | [] => None
  | x :: _ => Some x
  end.

Definition startPoint {T} (e : Edge T) : option (Vector T) :=
  match e with
  | makeLine p _ => Some p
  | makeSpline pts _ => hd_error pts
  end.

Definition endPoint {T} (e : Edge T) : option (Vector T) :=
  match e with
  | makeLine _ q => Some q
  | makeSpline pts _ => last_error pts
  end.

Definition edge_points {T} (e : Edge T) : list (Vector T) :=
  match e with
  | makeLine p q => [p; q]
  | makeSpline pts _ => pts
  end.

Inductive EdgeKind : Type := LineEdge | SplineEdge.

Definition edge_kind {T} (e : Edge T) : EdgeKind :=
  match e with
  | makeLine _ _ => LineEdge
  | makeSpline _ _ => SplineEdge
  end.

(** [cq.Wire.assembleEdges]: the wire keeps the edges in the order given. *)
Record Wire (T : Type) : Type := assembleEdges { wire_edges : list (Edge T) }.

Definition wire_endPoint {T} (w : Wire T) : option (Vector T) :=
  match last_error (wire_edges w) with
  | Some e => endPoint e
  | None => None
  end.

Definition wire_startPoint {T} (w : Wire T) : option (Vector T) :=
  match wire_edges w with
  | e :: _ => startPoint e
  | [] => None
  end.

(** The points that define the wire, in the order of travel. *)
Definition wire_points {T} (w : Wire T) : list (Vector T) :=
  flat_map edge_points (wire_edges w).

(** [adjacent R l]: every element of [l] is related to its successor. *)
Fixpoint adjacent {A : Type} (R : A -> A -> Prop) (l : list A) : Prop :=
  match l with
  | [] => True
  | x :: tl =>
      match tl with
      | [] => True
      | y :: _ => R x y /\ adjacent R tl
      end
  end.

(** Two consecutive edges meet: the first ends where the second starts. *)
Definition joined {T} (e1 e2 : Edge T) : Prop :=
  exists v, endPoint e1 = Some v /\ startPoint e2 = Some v.

Definition continuous {T} (w : Wire T) : Prop :=
  adjacent joined (wire_edges w).

(** ** Solids *)

Inductive EdgeSel : Type :=
| ParallelY   (* "|Y" *)
| ParallelZ   (* "|Z" *)
| MaxZ.       (* ">Z" *)

Inductive Solid (T : Type) : Type :=
| Box (offset : Vector T) (length width height : T)
      (* Workplane("XY").transformed(offset=...).box(l, w, h) *)
| Sphere (radius : T)
| Translate (v : Vector T) (s : Solid T)
| Sweep (profile_radius : T) (path : Wire T)
      (* Workplane("XZ").circle(r)
         .sweep(path, isFrenet=True, transition="round") *)
| Clean (s : Solid T)
| ExtrudedCircle (plane_offset center_x center_z radius distance : T)
      (* Workplane("XZ").workplane(offset).center(x, z)
         .circle(r).extrude(d) *)
| Union (a b : Solid T)
| Cut (a b : Solid T)
| Fillet (sel : EdgeSel) (radius : T) (s : Solid T).

Record BoundBox (T : Type) : Type := mkBB {
  xmin : T; xmax : T;
  ymin : T; ymax : T;
  zmin : T; zmax : T
}.

(** What the script asks of the kernel and cannot compute itself. *)
Class Kernel (T : Type) : Type := {
  BoundingBox : Solid T -> BoundBox T;
  fillet_feasible : EdgeSel -> T -> Solid T -> bool
}.

(** [s.edges(sel).fillet(r)]: [None] when the kernel raises. *)
Definition fillet {T} `{Kernel T} (sel : EdgeSel) (r : T) (s : Solid T)
  : option (Solid T) :=
  if fillet_feasible sel r s then Some (Fillet sel r s) else None.

(** [try: s = s.edges(sel).fillet(r)  except: pass] *)
Definition try_fillet {T} `{Kernel T} (sel : EdgeSel) (r : T) (s : Solid T)
  : Solid T :=
  match fillet sel r s with
  | Some s' => s'
  | None => s
  end.

(** A [Workplane] defines neither [__bool__] nor [__len__]: it is true. *)
Definition truthy {T} (s : Solid T) : bool := true.

(** [fillets_of s t]: [t] is [s] after zero or more fillets, nothing else. *)
Inductive fillets_of {T} (s : Solid T) : Solid T -> Prop :=
| fillets_none : fillets_of s s
| fillets_more sel r t : fillets_of s t -> fillets_of s (Fillet sel r t).

Section Script.

Context {T : Type} `{Number T}.
Variable P : Params T.

Local Open Scope num_scope.

(** *** Derived values (lines 36-38) *)

Definition tube_radius : T := marble_radius P + clearance P.
Definition turn_radius : T := tube_radius * turn_factor P.
Definition outlet_length : T := tube_radius * outlet_factor P.

(** *** Path generation (lines 44-114) *)

Record PathLayout : Type := mkPathLayout {
  layer1_len : T; layer2_len : T; layer3_len : T;
  layer1_height : T; layer2_height : T; layer3_height : T;
  outlet_start_y : T; outlet_start_z : T;
  outlet_end_y : T; outlet_end_z : T;
  layer1_start_y : T; layer1_start_z : T;
  layer1_end_y : T; layer1_end_z : T;
  turn1_apex_y : T; turn1_apex_z : T;
  layer2_start_y : T; layer2_start_z : T;
  layer2_end_y : T; layer2_end_z : T;
  turn2_apex_y : T; turn2_apex_z : T;
  layer3_start_y : T; layer3_start_z : T;
  layer3_end_y : T; layer3_end_z : T
}.

(** The local variables of [make_marble_path], lines 48-87. *)
Definition path_layout : PathLayout :=
  (* Section lengths *)
  let layer1_len := $(marbles_per_layer P) * tube_radius * $2 in
  let layer2_len := $(marbles_per_layer P - 1) * tube_radius * $2 in
  let layer3_len :=
    $(marbles_per_layer P - 1) * tube_radius * $2 + tube_radius in
  (* Height gains *)
  let layer1_height := layer1_len * slope P in
  let layer2_height := layer2_len * slope P in
  let layer3_height := layer3_len * slope P in
  (* Outlet *)
  let outlet_start_y := $0 in
  let outlet_start_z := $0 in
  let outlet_end_y := outlet_length in
  let outlet_end_z := $0 in
  (* Layer 1 (direction: +Y) *)
  let layer1_start_y := outlet_end_y in
  let layer1_start_z := outlet_end_z in
  let layer1_end_y := outlet_end_y + layer1_len in
  let layer1_end_z := layer1_height in
  (* Turn 1 *)
  let turn1_apex_y := layer1_end_y + turn_radius in
  let turn1_apex_z := layer1_end_z + turn_radius in
  (* Layer 2 (direction: -Y) *)
  let layer2_start_y := layer1_end_y in
  let layer2_start_z := layer1_end_z + turn_radius * $2 in
  let layer2_end_y := layer2_start_y - layer2_len in
  let layer2_end_z := layer2_start_z + layer2_height in
  (* Turn 2 *)
  let turn2_apex_y := layer2_end_y - turn_radius in
  let turn2_apex_z := layer2_end_z + turn_radius in
  (* Layer 3 (direction: +Y) *)
  let layer3_start_y := layer2_end_y in
  let layer3_start_z := layer2_end_z + turn_radius * $2 in
  let layer3_end_y := layer3_start_y + layer3_len in
  let layer3_end_z := layer3_start_z + layer3_height in
  mkPathLayout layer1_len layer2_len layer3_len
    layer1_height layer2_height layer3_height
    outlet_start_y outlet_start_z outlet_end_y outlet_end_z
    layer1_start_y layer1_start_z layer1_end_y layer1_end_z
    turn1_apex_y turn1_apex_z
    layer2_start_y layer2_start_z layer2_end_y layer2_end_z
    turn2_apex_y turn2_apex_z
    layer3_start_y layer3_start_z layer3_end_y layer3_end_z.

(** Arcs with tangents, lines 90-102. *)
Definition turn1 : Edge T :=
  let L := path_layout in
  makeSpline
    [vec $0 (layer1_end_y L) (layer1_end_z L);
     vec $0 (turn1_apex_y L) (turn1_apex_z L);
     vec $0 (layer2_start_y L) (layer2_start_z L)]
    [vec $0 $1 (slope P); vec $0 $0 $1; vec $0 (- $1) (slope P)].

Definition turn2 : Edge T :=
  let L := path_layout in
  makeSpline
    [vec $0 (layer2_end_y L) (layer2_end_z L);
     vec $0 (turn2_apex_y L) (turn2_apex_z L);
     vec $0 (layer3_start_y L) (layer3_start_z L)]
    [vec $0 (- $1) (slope P); vec $0 $0 $1; vec $0 $1 (slope P)].

(** Assemble edges, lines 105-114. *)
Definition make_marble_path : Wire T :=
  let L := path_layout in
  let edges :=
    [makeLine (vec $0 (outlet_start_y L) (outlet_start_z L))
              (vec $0 (outlet_end_y L) (outlet_end_z L));
     makeLine (vec $0 (layer1_start_y L) (layer1_start_z L))
              (vec $0 (layer1_end_y L) (layer1_end_z L));
     turn1;
     makeLine (vec $0 (layer2_start_y L) (layer2_start_z L))
              (vec $0 (layer2_end_y L) (layer2_end_z L));
     turn2;
     makeLine (vec $0 (layer3_start_y L) (layer3_start_z L))
              (vec $0 (layer3_end_y L) (layer3_end_z L))] in
  assembleEdges edges.

End Script.

Section Solids.

Context {T : Type} `{Number T} `{Kernel T}.
Variable P : Params T.

Local Open Scope num_scope.

(** *** Groove solid (lines 120-130) *)

(** [path.endPoint()] raises on a wire without edges. *)
Definition make_groove_solid (path : Wire T) : option (Solid T) :=
  let tube := Sweep (tube_radius P) path in
  let tube := Clean tube in
  let sphere_start :=
    Translate (vec $0 $0 (- (lit 35 100) * tube_radius P))
              (Sphere (tube_radius P)) in
  match wire_endPoint path with
  | Some e =>
      let sphere_end := Translate e (Sphere (tube_radius P)) in
      Some (Union (Union tube sphere_start) sphere_end)
  | None => None
  end.

(** *** Windows (lines 136-205) *)

Record WindowLayout : Type := mkWindowLayout {
  w_layer1_len : T; w_layer2_len : T; w_layer3_len : T;
  w_layer1_height : T; w_layer2_height : T; w_layer3_height : T;
  total_height : T;
  box_start_y : T; box_end_y : T; w_box_length : T;
  window_length : T; window_height : T; window_depth : T;
  window_center_y : T;
  window_upper_z : T; window_lower_z : T;
  turn2_z : T;
  turn1_z : T; turn1_y : T
}.

(** The local variables of [make_windows]. *)
Definition window_layout : WindowLayout :=
  let layer1_len := $(marbles_per_layer P) * tube_radius P * $2 in
  let layer2_len := $(marbles_per_layer P - 1) * tube_radius P * $2 in
  let layer3_len :=
    $(marbles_per_layer P - 1) * tube_radius P * $2 + tube_radius P in
  let layer1_height := layer1_len * slope P in
  let layer2_height := layer2_len * slope P in
  let layer3_height := layer3_len * slope P in
  (* total height of the tube *)
  let total_height :=
    layer1_height + turn_radius P * $2 + layer2_height
    + turn_radius P * $2 + layer3_height in
  (* box length (Y direction) *)
  let box_start_y := outlet_length P in
  let box_end_y := outlet_length P + layer1_len + turn_radius P in
  let box_length := box_end_y - box_start_y in
  let window_length := box_length * lit 8 10 in
  let window_height := tube_radius P * window_height_factor P in
  let window_depth := tube_radius P * $3 in
  (* middle of the box (Y direction) *)
  let window_center_y := box_start_y + box_length / $2 in
  let window_upper_z := total_height * $5 / $10 in
  let window_lower_z := layer1_height / $2 in
  let turn2_z :=
    layer1_height + turn_radius P * $2 + layer2_height
    + lit 8 10 * turn_radius P in
  let turn1_z := layer1_height + turn_radius P in
  let turn1_y := outlet_length P + layer1_len + turn_radius P in
  mkWindowLayout layer1_len layer2_len layer3_len
    layer1_height layer2_height layer3_height
    total_height box_start_y box_end_y box_length
    window_length window_height window_depth window_center_y
    window_upper_z window_lower_z turn2_z turn1_z turn1_y.

(** The two window fillets are not guarded: a failure aborts the call. *)
Definition make_windows : option (Solid T) :=
  let L := window_layout in
  match
    fillet ParallelY (window_height L / $2 - lit 1 10)
      (Box (vec $0 (window_center_y L) (window_upper_z L))
           (window_depth L) (window_length L) (window_height L))
  with
  | None => None
  | Some window_upper =>
      match
        fillet ParallelY (window_height L / $2 - lit 1 10)
          (Box (vec $0 (window_center_y L) (window_lower_z L))
               (window_depth L) (window_length L) (window_height L))
      with
      | None => None
      | Some window_lower =>
          let window_front :=
            ExtrudedCircle (outlet_length P) $0 (turn2_z L)
              (tube_radius P * lit 7 10) (- tube_radius P * $4) in
          let window_back :=
            ExtrudedCircle (- turn1_y L) $0 (turn1_z L)
              (tube_radius P * lit 7 10) (- tube_radius P * $4) in
          Some (Union (Union (Union window_upper window_lower) window_front)
                      window_back)
      end
  end.

(** *** Housing (lines 212-270) *)

Record HousingLayout : Type := mkHousingLayout {
  box_length : T; box_width : T; box_height : T;
  box_center_x : T; box_center_y : T; box_center_z : T;
  ground_length : T; ground_width : T; ground_height : T;
  ground_center_x : T; ground_center_y : T; ground_center_z : T
}.

(** The local numbers of [make_storage], from the bounding box [bb]. *)
Definition housing_layout (bb : BoundBox T) : HousingLayout :=
  (* Main box (upper part with open channel) *)
  let box_length :=
    ymax bb - ymin bb + $2 * wall_thickness P - $2 * tube_radius P in
  let box_width :=
    xmax bb - xmin bb + $2 * wall_thickness P + lit 2 10 * tube_radius P in
  let box_height :=
    zmax bb - zmin bb + wall_thickness P - lit 17 10 * tube_radius P in
  let box_center_x := (xmax bb + xmin bb) / $2 in
  let box_center_y := (ymax bb + ymin bb + $2 * tube_radius P) / $2 in
  let box_center_z := (zmax bb - lit 17 10 * tube_radius P + zmin bb) / $2 in
  (* Ground plate (lower part, fully enclosed tunnel) *)
  let ground_length := ymax bb - ymin bb + $2 * wall_thickness P in
  let ground_width :=
    xmax bb - xmin bb + $2 * wall_thickness P + $1 * tube_radius P in
  let ground_height := lit 12 10 * tube_radius P in
  let ground_center_x := (xmax bb + xmin bb) / $2 in
  let ground_center_y := (ymax bb + ymin bb) / $2 in
  let ground_center_z := - (lit 9 10) * tube_radius P in
  mkHousingLayout box_length box_width box_height
    box_center_x box_center_y box_center_z
    ground_length ground_width ground_height
    ground_center_x ground_center_y ground_center_z.

(** The upper box and the ground plate as first built (lines 226-245);
    [box] takes its extents in the order X, Y, Z. *)
Definition upper_box (bb : BoundBox T) : Solid T :=
  let L := housing_layout bb in
  Box (vec (box_center_x L) (box_center_y L) (box_center_z L))
      (box_width L) (box_length L) (box_height L).

Definition ground_plate (bb : BoundBox T) : Solid T :=
  let L := housing_layout bb in
  Box (vec (ground_center_x L) (ground_center_y L) (ground_center_z L))
      (ground_width L) (ground_length L) (ground_height L).

Definition make_storage (groove : Solid T) : option (Solid T) :=
  let bb := BoundingBox groove in
  let box := upper_box bb in
  let ground := ground_plate bb in
  let '(box, ground) :=
    if enable_fillet P then
      let ground := try_fillet ParallelZ (fillet_radius P) ground in
      let box := try_fillet MaxZ (fillet_radius P) box in
      let box := try_fillet ParallelZ (fillet_radius P) box in
      (box, ground)
    else (box, ground) in
  let result := Cut (Union box ground) groove in
  if enable_windows P then
    match make_windows with
    | None => None
    | Some windows =>
        if truthy windows then Some (Cut result windows) else Some result
    end
  else Some result.

(** The build (lines 276-279): the housing, and the windows once more,
    which line 279 builds whether or not they are enabled. *)
Definition build : option (Solid T * Solid T) :=
  let path := make_marble_path P in
  match make_groove_solid path with
  | Some groove =>
      match make_storage groove with
      | Some storage =>
          match make_windows with
          | Some windows => Some (storage, windows)
          | None => None
          end
      | None => None
      end
  | None => None
  end.

End Solids.

(** ** The parameter block of the script (lines 9-30) *)

Definition defaults {T} `{Number T} : Params T :=
  {| marble_radius := ($46 / $2)%num;
     clearance := ($2)%num;
     marbles_per_layer := 2;
     slope := lit 3 100;
     turn_factor := lit 13 10;
     outlet_factor := lit 13 10;
     wall_thickness := ($5)%num;
     enable_fillet := true;
     fillet_radius := ($4)%num;
     enable_windows := true;
     window_height_factor := lit 8 10;
     window_margin_factor := lit 5 10 |}.

Definition with_marbles_per_layer {T} (n : Z) (P : Params T) : Params T :=
  mkParams (marble_radius P) (clearance P) n (slope P) (turn_factor P)
    (outlet_factor P) (wall_thickness P) (enable_fillet P) (fillet_radius P)
    (enable_windows P) (window_height_factor P) (window_margin_factor P).

Definition with_enable_fillet {T} (b : bool) (P : Params T) : Params T :=
  mkParams (marble_radius P) (clearance P) (marbles_per_layer P) (slope P)
    (turn_factor P) (outlet_factor P) (wall_thickness P) b (fillet_radius P)
    (enable_windows P) (window_height_factor P) (window_margin_factor P).

Definition with_enable_windows {T} (b : bool) (P : Params T) : Params T :=
  mkParams (marble_radius P) (clearance P) (marbles_per_layer P) (slope P)
    (turn_factor P) (outlet_factor P) (wall_thickness P) (enable_fillet P)
    (fillet_radius P) b (window_height_factor P) (window_margin_factor P).

(** ** Sample kernels over the rationals

    Stand-ins for CadQuery on which the script can be run: they answer the
    same bounding box for every solid and differ in the fillets they accept. *)

Definition sample_bb : BoundBox Q :=
  {| xmin := -25; xmax := 25;
     ymin := -25; ymax := 190;
     zmin := -(135 # 4); zmax := (647 # 4) |}.

(** Every fillet is feasible. *)
Definition lenient_kernel : Kernel Q :=
  {| BoundingBox := fun _ => sample_bb;
     fillet_feasible := fun _ _ _ => true |}.

(** The fillets of the housing are refused, those of the windows accepted. *)
Definition strict_kernel : Kernel Q :=
  {| BoundingBox := fun _ => sample_bb;
     fillet_feasible := fun sel _ _ =>
       match sel with ParallelY => true | _ => false end |}.

(** No fillet is feasible. *)
Definition refusing_kernel : Kernel Q :=
  {| BoundingBox := fun _ => sample_bb;
     fillet_feasible := fun _ _ _ => false |}.

(** A fillet is feasible on a plain box only. *)
Definition plain_box_kernel : Kernel Q :=
  {| BoundingBox := fun _ => sample_bb;
     fillet_feasible := fun _ _ s =>
       match s with Box _ _ _ _ => true | _ => false end |}.

(** ** Properties stated on values *)

(** Heights of the defining points of the path, in the order of travel. *)
Definition path_heights {T} `{Number T} (P : Params T) : list T :=
  map (@vz T) (wire_points (make_marble_path P)).

Definition heights_nondecreasing (P : Params Q) : Prop :=
  adjacent Qle (path_heights P).

Fixpoint nondecreasingb (l : list Q) : bool :=
  match l with
  | [] => true
  | x :: tl =>
      match tl with
      | [] => true
      | y :: _ => Qle_bool x y && nondecreasingb tl
      end
  end.

(** The height on a straight edge at parameter [t], from 0 at its start to
    1 at its end; a spline has no height that the script determines between
    its points. *)
Definition line_height (e : Edge Q) (t : Q) : option Q :=
  match e with
  | makeLine p q => Some (vz p + t * (vz q - vz p))
  | makeSpline _ _ => None
  end.

(** The housing that [make_storage] returns when it is handed the two
    boxes [B] and [G] as they are after the fillet block. *)
Definition housing_of {T} `{Number T} `{Kernel T} (P : Params T)
    (B G groove : Solid T) : option (Solid T) :=
  if enable_windows P then
    match make_windows P with
    | Some windows => Some (Cut (Cut (Union B G) groove) windows)
    | None => None
    end
  else Some (Cut (Union B G) groove).

(** The extents of a box, in the order X, Y, Z. *)
Definition box_extents {T} (s : Solid T) : option (T * T * T) :=
  match s with
  | Box _ l w h => Some (l, w, h)
  | _ => None
  end.

Definition box_offset {T} (s : Solid T) : option (Vector T) :=
  match s with
  | Box o _ _ _ => Some o
  | _ => None
  end.

(** The two boxes as they leave the fillet block (lines 247-261). *)
Definition finished_box {T} `{Number T} `{Kernel T} (P : Params T)
    (bb : BoundBox T) : Solid T :=
  if enable_fillet P then
    try_fillet ParallelZ (fillet_radius P)
      (try_fillet MaxZ (fillet_radius P) (upper_box P bb))
  else upper_box P bb.

Definition finished_ground {T} `{Number T} `{Kernel T} (P : Params T)
    (bb : BoundBox T) : Solid T :=
  if enable_fillet P then
    try_fillet ParallelZ (fillet_radius P) (ground_plate P bb)
  else ground_plate P bb.

(** Extents compared as rationals, in the order X, Y, Z. *)
Definition extents_eq (a b : Q * Q * Q) : Prop :=
  let '(ax, ay, az) := a in
  let '(bx, by_, bz) := b in
  ax == bx /\ ay == by_ /\ az == bz.

(** The extents of the upper box in the words of the specification: the
    bounding box plus the wall on both sides in X and in Y, less two tube
    radii in Y; the height of the bounding box plus one wall less 1.7 tube
    radii. *)
Definition specified_upper_box_extents (P : Params Q) (bb : BoundBox Q)
  : Q * Q * Q :=
  (xmax bb - xmin bb + 2 * wall_thickness P,
   ymax bb - ymin bb + 2 * wall_thickness P - 2 * tube_radius P,
   zmax bb - zmin bb + wall_thickness P - (17 # 10) * tube_radius P).

(** The extents of the base box in the words of the specification: the
    bounding box plus the wall on both sides in X and in Y, and a height of
    1.2 tube radii. *)
Definition specified_base_box_extents (P : Params Q) (bb : BoundBox Q)
  : Q * Q * Q :=
  (xmax bb - xmin bb + 2 * wall_thickness P,
   ymax bb - ymin bb + 2 * wall_thickness P,
   (12 # 10) * tube_radius P).

(** Two points agree within [eps] in every coordinate. *)
Definition within_tolerance (eps : Q) (p q : Vector Q) : Prop :=
  Qabs (vx p - vx q) <= eps
  /\ Qabs (vy p - vy q) <= eps
  /\ Qabs (vz p - vz q) <= eps.

Definition joined_within (eps : Q) (e1 e2 : Edge Q) : Prop :=
  exists p q,
    endPoint e1 = Some p /\ startPoint e2 = Some q
    /\ within_tolerance eps p q.

Definition with_window_margin_factor {T} (m : T) (P : Params T) : Params T :=
  mkParams (marble_radius P) (clearance P) (marbles_per_layer P) (slope P)
    (turn_factor P) (outlet_factor P) (wall_thickness P) (enable_fillet P)
    (fillet_radius P) (enable_windows P) (window_height_factor P) m.

(** The parameters that [make_marble_path] reads. *)
Definition same_track {T} (P P' : Params T) : Prop :=
  marble_radius P = marble_radius P'
  /\ clearance P = clearance P'
  /\ marbles_per_layer P = marbles_per_layer P'
  /\ slope P = slope P'
  /\ turn_factor P = turn_factor P'
  /\ outlet_factor P = outlet_factor P'.

(** The two rectangular windows before their fillet (lines 165-180). *)
Definition window_upper_box {T} `{Number T} (P : Params T) : Solid T :=
  let L := window_layout P in
  Box (vec ($0)%num (window_center_y L) (window_upper_z L))
      (window_depth L) (window_length L) (window_height L).

Definition window_lower_box {T} `{Number T} (P : Params T) : Solid T :=
  let L := window_layout P in
  Box (vec ($0)%num (window_center_y L) (window_lower_z L))
      (window_depth L) (window_length L) (window_height L).

Definition window_fillet_radius {T} `{Number T} (P : Params T) : T :=
  (window_height (window_layout P) / $2 - lit 1 10)%num.

(** The named plane "XZ" of CadQuery has its normal along -Y: the plane
    [workplane(offset=o)] lies at y = -o, and [extrude(d)] ends at
    y = -o - d. *)
Definition xz_plane_y {T} `{Number T} (o : T) : T := (- o)%num.

Definition xz_extrude_end {T} `{Number T} (o d : T) : T := (- o - d)%num.

(** The lowest height of a box, which is centred on its offset, and of a
    sphere moved off the origin. *)
Definition bottom_z {T} `{Number T} (s : Solid T) : option T :=
  match s with
  | Box o _ _ h => Some (vz o - h / $2)%num
  | Translate v (Sphere r) => Some (vz v - r)%num
  | _ => None
  end.

(** The groove of the default build, as [make_groove_solid] returns it. *)
Definition default_groove : Solid Q :=
  match make_groove_solid defaults (make_marble_path defaults) with
  | Some groove => groove
  | None => Sphere 0
  end.

(** * Theorems *)

Unset Implicit Arguments.

(** ** The path *)

Section PathFacts.

Context {T : Type} `{Number T}.
Variable P : Params T.

Local Open Scope num_scope.

Lemma joined_line_line (a b c : Vector T) :
  joined (makeLine a b) (makeLine b c).
Proof. exists b. split; reflexivity. Qed.

Lemma joined_line_spline (a b : Vector T) pts tg :
  joined (makeLine a b) (makeSpline (b :: pts) tg).
Proof. exists b. split; reflexivity. Qed.

Lemma joined_spline_line (a b c d : Vector T) tg :
  joined (makeSpline [a; b; c] tg) (makeLine c d).
Proof. exists c. split; reflexivity. Qed.

Lemma wire_endPoint_make_marble_path :
  wire_endPoint (make_marble_path P)
  = Some (vec $0 (layer3_end_y (path_layout P))
              (layer3_end_z (path_layout P))).
Proof. reflexivity. Qed.

Lemma wire_startPoint_make_marble_path :
  wire_startPoint (make_marble_path P) = Some (vec $0 $0 $0).
Proof. reflexivity. Qed.

End PathFacts.

Lemma within_tolerance_refl (eps : Q) (p : Vector Q) :
  0 <= eps -> within_tolerance eps p p.
Proof.
  intros He. unfold within_tolerance.
  assert (E : forall x : Q, Qabs (x - x) <= eps).
  { intros x. setoid_replace (x - x) with 0 by ring. exact He. }
  repeat split; apply E.
Qed.

Lemma joined_joined_within (eps : Q) (e1 e2 : Edge Q) :
  0 <= eps -> joined e1 e2 -> joined_within eps e1 e2.
Proof.
  intros He (v & H1 & H2). exists v, v.
  repeat split; try assumption; now apply within_tolerance_refl.
Qed.

Lemma adjacent_impl {A : Type} (R S : A -> A -> Prop) (l : list A) :
  (forall x y, R x y -> S x y) -> adjacent R l -> adjacent S l.
Proof.
  intros HRS. induction l as [|x [|y tl] IH]; cbn; auto.
  intros [Hxy Htl]. split; [now apply HRS | now apply IH].
Qed.

(** C1.  The wire of [make_marble_path] has six edges (outlet line, layer-1
    line, turn-1 spline, layer-2 line, turn-2 spline, layer-3 line) and each
    of them ends at the very point where the next one starts: the two
    points are equal whatever the arithmetic, binary64 included.  Over the
    rationals they therefore agree within every tolerance [eps >= 0]. *)
Theorem make_marble_path_continuous :
  (forall (T : Type) (N : Number T) (P : Params T),
     map (@edge_kind T) (wire_edges (make_marble_path P))
     = [LineEdge; LineEdge; SplineEdge; LineEdge; SplineEdge; LineEdge]
     /\ continuous (make_marble_path P))
  /\
  (forall (P : Params Q) (eps : Q),
     0 <= eps ->
     adjacent (joined_within eps) (wire_edges (make_marble_path P))).
Proof.
  assert (C : forall (T : Type) (N : Number T) (P : Params T),
             continuous (make_marble_path P)).
  { intros T N P.
    unfold continuous, make_marble_path, turn1, turn2.
    cbn [wire_edges adjacent].
    repeat split;
      first [ apply joined_line_line
            | apply joined_line_spline
            | apply joined_spline_line ]. }
  split.
  - intros T N P. split; [reflexivity | apply C].
  - intros P eps He.
    apply adjacent_impl with (R := @joined Q); [|apply C].
    intros x y. now apply joined_joined_within.
Qed.

(** The script's path is continuous within one millionth of the tube
    radius. *)
Lemma make_marble_path_continuous_witness :
  adjacent (joined_within ((1 # 1000000) * tube_radius defaults))
    (wire_edges (make_marble_path (defaults : Params Q))).
Proof.
  apply (proj2 make_marble_path_continuous defaults).
  vm_compute. discriminate.
Defined.

(** C2.  With the parameter block of the script (marble radius 23,
    clearance 2, two marbles per layer, slope 0.03, turn and outlet factor
    1.3) the derived values are exactly 25, 32.5, 32.5 and, for the three
    layers, lengths 100, 50, 75 and heights 3.0, 1.5, 2.25: as doubles
    under binary64 arithmetic, and as rationals under exact arithmetic. *)
Theorem default_derived_values :
  (let P : Params float := defaults in
   let L := path_layout P in
   marble_radius P = 23%float /\ tube_radius P = 25%float
   /\ turn_radius P = 32.5%float /\ outlet_length P = 32.5%float
   /\ layer1_len L = 100%float /\ layer1_height L = 3%float
   /\ layer2_len L = 50%float /\ layer2_height L = 1.5%float
   /\ layer3_len L = 75%float /\ layer3_height L = 2.25%float)
  /\
  (let P : Params Q := defaults in
   let L := path_layout P in
   marble_radius P == 23 /\ tube_radius P == 25
   /\ turn_radius P == 65 # 2 /\ outlet_length P == 65 # 2
   /\ layer1_len L == 100 /\ layer1_height L == 3
   /\ layer2_len L == 50 /\ layer2_height L == 3 # 2
   /\ layer3_len L == 75 /\ layer3_height L == 9 # 4).
Proof.
  split.
  - vm_compute. repeat split.
  - cbv zeta. repeat split; vm_compute; reflexivity.
Qed.

(** C10.  The layer lengths and heights that [make_windows] computes again
    are those of [make_marble_path], and its [total_height] is the height of
    the last point of the path, the end of layer 3.  Both sides are the same
    expression, so this holds in floating point as well. *)
Theorem windows_agree_with_path :
  forall (T : Type) (N : Number T) (P : Params T),
    let W := window_layout P in
    let L := path_layout P in
    w_layer1_len W = layer1_len L
    /\ w_layer2_len W = layer2_len L
    /\ w_layer3_len W = layer3_len L
    /\ w_layer1_height W = layer1_height L
    /\ w_layer2_height W = layer2_height L
    /\ w_layer3_height W = layer3_height L
    /\ total_height W = layer3_end_z L
    /\ option_map (@vz T) (wire_endPoint (make_marble_path P))
       = Some (total_height W).
Proof.
  intros T N P W L. repeat split.
Qed.

(** C4.  Turn 1 is the third edge of the path: a spline through the end of
    layer 1, an apex and the start of layer 2.  The apex is the end of
    layer 1 moved by [turn_radius] in travel (Y) and by [turn_radius] in
    height (Z); the start of layer 2 keeps the travel coordinate and is
    [turn_radius * 2] higher.  The tangents handed to the spline are
    (+1, slope), (0, 1) and (-1, slope) in (travel, height).  Over the
    rationals the offsets are [turn_radius], [turn_radius], [0] and
    [2 * turn_radius]. *)
Theorem turn1_geometry :
  (forall (T : Type) (N : Number T) (P : Params T),
     let L := path_layout P in
     let y := layer1_end_y L in
     let z := layer1_end_z L in
     nth_error (wire_edges (make_marble_path P)) 2 = Some (turn1 P)
     /\ option_map (@endPoint T) (nth_error (wire_edges (make_marble_path P)) 1)
        = Some (Some (vec ($0) y z))
     /\ option_map (@startPoint T)
          (nth_error (wire_edges (make_marble_path P)) 3)
        = Some (Some (vec ($0) y (z + turn_radius P * $2)))
     /\ turn1 P
        = makeSpline
            [vec ($0) y z;
             vec ($0) (y + turn_radius P) (z + turn_radius P);
             vec ($0) y (z + turn_radius P * $2)]
            [vec ($0) ($1) (slope P);
             vec ($0) ($0) ($1);
             vec ($0) (- $1) (slope P)])%num
  /\
  (forall P : Params Q,
     let L := path_layout P in
     turn1_apex_y L - layer1_end_y L == turn_radius P
     /\ turn1_apex_z L - layer1_end_z L == turn_radius P
     /\ layer2_start_y L - layer1_end_y L == 0
     /\ layer2_start_z L - layer1_end_z L == 2 * turn_radius P).
Proof.
  split.
  - intros T N P L y z. repeat split.
  - intros P L. subst L. cbn. repeat split; ring.
Qed.

(** ** Heights along the path *)

Lemma nondecreasingb_sound (l : list Q) :
  nondecreasingb l = true -> adjacent Qle l.
Proof.
  induction l as [|x [|y tl] IH]; cbn; auto.
  intros E. apply andb_true_iff in E. destruct E as [E1 E2].
  split; [now apply Qle_bool_iff | now apply IH].
Qed.

Lemma nondecreasingb_complete (l : list Q) :
  adjacent Qle l -> nondecreasingb l = true.
Proof.
  induction l as [|x [|y tl] IH]; cbn; auto.
  intros [E1 E2]. apply andb_true_iff.
  split; [now apply Qle_bool_iff | now apply IH].
Qed.

(** The layers are not shorter than nothing once the tube has a radius and
    the first layer holds a marble. *)
Lemma layer_lengths_nonneg (P : Params Q) :
  0 <= tube_radius P -> (1 <= marbles_per_layer P)%Z ->
  0 <= layer1_len (path_layout P)
  /\ 0 <= layer2_len (path_layout P)
  /\ 0 <= layer3_len (path_layout P).
Proof.
  intros Hr Hm. cbn -[tube_radius].
  change (inject_Z 2) with 2.
  set (r := tube_radius P) in *.
  assert (H1 : 0 <= inject_Z (marbles_per_layer P)).
  { change 0 with (inject_Z 0). rewrite <- Zle_Qle. lia. }
  assert (H2 : 0 <= inject_Z (marbles_per_layer P - 1)).
  { change 0 with (inject_Z 0). rewrite <- Zle_Qle. lia. }
  pose proof (Qmult_le_0_compat _ _ H1 Hr) as A1.
  pose proof (Qmult_le_0_compat _ _ H2 Hr) as A2.
  repeat split; lra.
Qed.

Lemma line_height_mono (z z' t t' : Q) :
  z <= z' -> t <= t' -> z + t * (z' - z) <= z + t' * (z' - z).
Proof.
  intros Hz Ht.
  assert (A : 0 <= (t' - t) * (z' - z)).
  { apply Qmult_le_0_compat; lra. }
  lra.
Qed.

(** X13.  Heights where the script determines them.  When the slope and the
    turn radius are positive, the tube radius is not negative and the first
    layer holds at least one marble, the heights of the points that define
    the path (the ends of the lines and the three points of each spline, in
    the order of travel) never decrease, and along each of the four
    straight edges the height never decreases from its start to its end.
    What the curve of a spline does between its three points is the
    kernel's and is not covered. *)
Theorem path_heights_nondecreasing :
  forall P : Params Q,
    0 < slope P -> 0 < turn_radius P ->
    0 <= tube_radius P -> (1 <= marbles_per_layer P)%Z ->
    heights_nondecreasing P
    /\ forall (e : Edge Q) (t t' h h' : Q),
         In e (wire_edges (make_marble_path P)) ->
         t <= t' ->
         line_height e t = Some h -> line_height e t' = Some h' ->
         h <= h'.
Proof.
  intros P Hs Ht Hr Hm.
  destruct (layer_lengths_nonneg P Hr Hm) as (L1 & L2 & L3).
  assert (S0 : 0 <= slope P) by lra.
  pose proof (Qmult_le_0_compat _ _ L1 S0) as H1.
  pose proof (Qmult_le_0_compat _ _ L2 S0) as H2.
  pose proof (Qmult_le_0_compat _ _ L3 S0) as H3.
  split.
  - unfold heights_nondecreasing, path_heights.
    cbn -[tube_radius turn_radius] in *.
    change (inject_Z 2) with 2 in *. change (inject_Z 0) with 0.
    set (t := turn_radius P) in *.
    set (s := slope P) in *.
    set (l1 := inject_Z (marbles_per_layer P) * tube_radius P * 2) in *.
    set (l2 := inject_Z (marbles_per_layer P - 1) * tube_radius P * 2) in *.
    repeat split; lra.
  - intros e t t' h h' He Htt Eh Eh'.
    unfold make_marble_path, turn1, turn2 in He. cbn [wire_edges In] in He.
    cbn in H1, H2, H3.
    repeat match type of He with _ \/ _ => destruct He as [He|He] end;
      try contradiction; subst e; try discriminate Eh;
      cbn [line_height vz] in Eh, Eh';
      injection Eh as <-; injection Eh' as <-;
      (apply line_height_mono; [|exact Htt]);
      cbn; change (inject_Z 0) with 0; clear - H1 H2 H3; lra.
Qed.

(** The parameter block of the script meets the four conditions. *)
Lemma path_heights_nondecreasing_witness :
  heights_nondecreasing defaults.
Proof.
  refine (proj1 (path_heights_nondecreasing (defaults : Params Q) _ _ _ _));
    vm_compute; first [ reflexivity | discriminate ].
Defined.

(** ** The housing *)

Section HousingFacts.

Context {T : Type} `{Number T} `{Kernel T}.
Variable P : Params T.

Lemma try_fillet_cases sel r (s : Solid T) :
  try_fillet sel r s
  = if fillet_feasible sel r s then Fillet sel r s else s.
Proof.
  unfold try_fillet, fillet. destruct (fillet_feasible sel r s); reflexivity.
Qed.

Lemma fillets_of_try_fillet sel r (s t : Solid T) :
  fillets_of s t -> fillets_of s (try_fillet sel r t).
Proof.
  intros Hst. rewrite try_fillet_cases.
  destruct (fillet_feasible sel r t); [now constructor | exact Hst].
Qed.

Lemma finished_box_fillets bb :
  fillets_of (upper_box P bb) (finished_box P bb).
Proof.
  unfold finished_box. destruct (enable_fillet P); [|constructor].
  do 2 apply fillets_of_try_fillet. constructor.
Qed.

Lemma finished_ground_fillets bb :
  fillets_of (ground_plate P bb) (finished_ground P bb).
Proof.
  unfold finished_ground. destruct (enable_fillet P); [|constructor].
  apply fillets_of_try_fillet. constructor.
Qed.

Lemma make_storage_unfold (groove : Solid T) :
  make_storage P groove
  = housing_of P (finished_box P (BoundingBox groove))
      (finished_ground P (BoundingBox groove)) groove.
Proof.
  unfold make_storage, housing_of, finished_box, finished_ground, truthy.
  destruct (enable_fillet P); reflexivity.
Qed.

End HousingFacts.

(** C3.  [make_storage] fillets first: with fillets enabled it rounds the
    vertical edges of the ground plate, then the top edges of the upper box,
    then the vertical edges of the upper box as the second attempt left it,
    each where the kernel accepts the fillet.  Then it unites the two boxes,
    then cuts the groove, then, when windows are enabled, cuts the windows:
    the housing is ((box + ground) - groove) - windows, the fillets sitting
    on the boxes, inside the union. *)
Theorem make_storage_order :
  forall (T : Type) (N : Number T) (K : Kernel T) (P : Params T)
         (groove : Solid T),
    let bb := BoundingBox groove in
    let r := fillet_radius P in
    let ground := ground_plate P bb in
    let box := upper_box P bb in
    let ground' :=
      if enable_fillet P && fillet_feasible ParallelZ r ground
      then Fillet ParallelZ r ground else ground in
    let box' :=
      if enable_fillet P && fillet_feasible MaxZ r box
      then Fillet MaxZ r box else box in
    let box'' :=
      if enable_fillet P && fillet_feasible ParallelZ r box'
      then Fillet ParallelZ r box' else box' in
    make_storage P groove
    = if enable_windows P then
        match make_windows P with
        | Some windows =>
            Some (Cut (Cut (Union box'' ground') groove) windows)
        | None => None
        end
      else Some (Cut (Union box'' ground') groove).
Proof.
  intros T N K P groove bb r ground box ground' box' box''.
  rewrite make_storage_unfold.
  unfold housing_of, finished_box, finished_ground.
  subst ground' box'' box'. fold bb. fold r. fold ground. fold box.
  destruct (enable_fillet P); cbn [andb]; [|reflexivity].
  rewrite !try_fillet_cases. reflexivity.
Qed.

(** With every fillet accepted the default housing is the union of the
    upper box, filleted on its top and then on its vertical edges, with the
    ground plate, filleted on its vertical edges, less groove and windows. *)
Example make_storage_all_fillets :
  exists windows,
    @make_windows Q _ lenient_kernel defaults = Some windows
    /\ @make_storage Q _ lenient_kernel defaults default_groove
       = Some
           (Cut
              (Cut
                 (Union
                    (Fillet ParallelZ 4
                       (Fillet MaxZ 4 (upper_box defaults sample_bb)))
                    (Fillet ParallelZ 4 (ground_plate defaults sample_bb)))
                 default_groove)
              windows).
Proof. eexists. split; reflexivity. Qed.

(** C7.  With [enable_windows] off, [make_storage] returns (B + G) - groove,
    the boxes filleted as in the windowed build; the windowed build returns
    that same solid with the windows cut out of it, and nothing else
    differs. *)
Theorem make_storage_without_windows :
  forall (T : Type) (N : Number T) (K : Kernel T) (P : Params T)
         (groove : Solid T),
  exists B G,
    fillets_of (upper_box P (BoundingBox groove)) B
    /\ fillets_of (ground_plate P (BoundingBox groove)) G
    /\ make_storage (with_enable_windows false P) groove
       = Some (Cut (Union B G) groove)
    /\ make_storage (with_enable_windows true P) groove
       = option_map (Cut (Cut (Union B G) groove)) (make_windows P).
Proof.
  intros T N K P groove.
  exists (finished_box P (BoundingBox groove)),
         (finished_ground P (BoundingBox groove)).
  split; [apply finished_box_fillets|].
  split; [apply finished_ground_fillets|].
  split.
  - rewrite make_storage_unfold. reflexivity.
  - rewrite make_storage_unfold. unfold housing_of.
    cbn [enable_windows with_enable_windows].
    change (make_windows (with_enable_windows true P)) with (make_windows P).
    destruct (make_windows P); reflexivity.
Qed.

(** C5, as amended.  The upper box that [make_storage] builds and then
    fillets spans, in the travel axis Y, the bounding box of the groove plus
    the wall on both sides less two tube radii; across the track, in X, the
    bounding box plus the wall on both sides plus 0.2 tube radii; and in
    height the bounding box plus one wall less 1.7 tube radii. *)
Theorem upper_box_extents :
  (forall (T : Type) (N : Number T) (K : Kernel T) (P : Params T)
          (groove : Solid T),
     let bb := BoundingBox groove in
     (exists B G,
        fillets_of (upper_box P bb) B
        /\ make_storage P groove = housing_of P B G groove)
     /\ box_extents (upper_box P bb)
        = Some (xmax bb - xmin bb + $2 * wall_thickness P
                + lit 2 10 * tube_radius P,
                ymax bb - ymin bb + $2 * wall_thickness P
                - $2 * tube_radius P,
                zmax bb - zmin bb + wall_thickness P
                - lit 17 10 * tube_radius P))%num
  /\
  (forall (P : Params Q) (bb : BoundBox Q),
   exists w l h,
     box_extents (upper_box P bb) = Some (w, l, h)
     /\ extents_eq (w - (2 # 10) * tube_radius P, l, h)
          (specified_upper_box_extents P bb)).
Proof.
  split.
  - intros T N K P groove bb. split; [|reflexivity].
    exists (finished_box P bb), (finished_ground P bb).
    split; [apply finished_box_fillets | apply make_storage_unfold].
  - intros P bb. do 3 eexists. split; [reflexivity|].
    cbn. change (inject_Z 2) with 2. repeat split; ring.
Qed.

(** C5 as first stated fails.  With the parameters of the script the
    upper box is 65 wide where the
    bounding box plus the walls is 60: its extents are not the specified
    ones. *)
Lemma upper_box_not_as_specified :
  let P : Params Q := defaults in
  let bb := @BoundingBox Q lenient_kernel default_groove in
  ~ exists e,
      box_extents (upper_box P bb) = Some e
      /\ extents_eq e (specified_upper_box_extents P bb).
Proof.
  cbv zeta. intros (e & He & Hx).
  cbn in He. injection He as <-.
  destruct Hx as (Hw & _). vm_compute in Hw. discriminate Hw.
Qed.

(** C6, as amended.  The base box that [make_storage] builds and then
    fillets spans, in Y, the bounding box of the groove plus the wall on
    both sides; in X the bounding box plus the wall on both sides plus one
    tube radius; it is 1.2 tube radii high and centred at height -0.9 tube
    radii. *)
Theorem base_box_extents :
  (forall (T : Type) (N : Number T) (K : Kernel T) (P : Params T)
          (groove : Solid T),
     let bb := BoundingBox groove in
     (exists B G,
        fillets_of (ground_plate P bb) G
        /\ make_storage P groove = housing_of P B G groove)
     /\ box_extents (ground_plate P bb)
        = Some (xmax bb - xmin bb + $2 * wall_thickness P
                + $1 * tube_radius P,
                ymax bb - ymin bb + $2 * wall_thickness P,
                lit 12 10 * tube_radius P)
     /\ option_map (@vz T) (box_offset (ground_plate P bb))
        = Some (- lit 9 10 * tube_radius P))%num
  /\
  (forall (P : Params Q) (bb : BoundBox Q),
   exists w l h,
     box_extents (ground_plate P bb) = Some (w, l, h)
     /\ extents_eq (w - tube_radius P, l, h)
          (specified_base_box_extents P bb)).
Proof.
  split.
  - intros T N K P groove bb. split; [|split; reflexivity].
    exists (finished_box P bb), (finished_ground P bb).
    split; [apply finished_ground_fillets | apply make_storage_unfold].
  - intros P bb. do 3 eexists. split; [reflexivity|].
    cbn. change (inject_Z 2) with 2. change (inject_Z 1) with 1.
    repeat split; ring.
Qed.

(** C6 as first stated fails.  With the parameters of the script the
    base box is 85 wide where the
    bounding box plus the walls is 60: its extents are not the specified
    ones. *)
Lemma base_box_not_as_specified :
  let P : Params Q := defaults in
  let bb := @BoundingBox Q lenient_kernel default_groove in
  ~ exists e,
      box_extents (ground_plate P bb) = Some e
      /\ extents_eq e (specified_base_box_extents P bb).
Proof.
  cbv zeta. intros (e & He & Hx).
  cbn in He. injection He as <-.
  destruct Hx as (Hw & _). vm_compute in Hw. discriminate Hw.
Qed.

(** C8.  With fillets enabled, each of the three attempts (vertical edges
    of the ground plate, top edges of the upper box, vertical edges of the
    upper box) stands alone: an attempt the kernel refuses leaves its solid
    as it was, the later attempts are still made, and the union and the cuts
    follow whatever the outcomes.  Only the windows can make the call fail.
    The housing returned carries no record of the outcomes: when all three
    are refused it is the housing of the build with fillets disabled. *)
Theorem fillet_attempts_independent :
  forall (T : Type) (N : Number T) (K : Kernel T) (P : Params T)
         (groove : Solid T),
    enable_fillet P = true ->
    let bb := BoundingBox groove in
    let r := fillet_radius P in
    let ground := ground_plate P bb in
    let box := upper_box P bb in
    let ground' :=
      if fillet_feasible ParallelZ r ground
      then Fillet ParallelZ r ground else ground in
    let box' :=
      if fillet_feasible MaxZ r box then Fillet MaxZ r box else box in
    let box'' :=
      if fillet_feasible ParallelZ r box'
      then Fillet ParallelZ r box' else box' in
    make_storage P groove = housing_of P box'' ground' groove
    /\ (make_storage P groove = None -> make_windows P = None)
    /\ (fillet_feasible ParallelZ r ground = false ->
        fillet_feasible MaxZ r box = false ->
        fillet_feasible ParallelZ r box = false ->
        make_storage P groove
        = make_storage (with_enable_fillet false P) groove).
Proof.
  intros T N K P groove Hf bb r ground box ground' box' box''.
  assert (E : make_storage P groove = housing_of P box'' ground' groove).
  { rewrite make_storage_unfold. unfold finished_box, finished_ground.
    rewrite Hf, !try_fillet_cases. reflexivity. }
  split; [exact E|]. split.
  - rewrite E. unfold housing_of.
    destruct (enable_windows P); [|discriminate].
    destruct (make_windows P); [discriminate | reflexivity].
  - intros H1 H2 H3. rewrite E.
    rewrite (make_storage_unfold (with_enable_fillet false P)).
    subst box'' box' ground'. fold bb. rewrite H1, H2, H3. reflexivity.
Qed.

(** On a kernel that fillets plain boxes only, the first two attempts
    succeed and the third, made on the box already filleted, is refused. *)
Lemma fillet_attempts_independent_witness :
  enable_fillet (defaults : Params Q) = true
  /\ @make_storage Q _ plain_box_kernel defaults default_groove
     = @housing_of Q _ plain_box_kernel defaults
         (Fillet MaxZ 4 (upper_box defaults sample_bb))
         (Fillet ParallelZ 4 (ground_plate defaults sample_bb))
         default_groove.
Proof.
  split; [reflexivity|].
  exact (proj1 (fillet_attempts_independent Q _ plain_box_kernel defaults
                  default_groove eq_refl)).
Defined.

(** On a kernel that refuses every fillet of the housing the default build
    is the build with fillets disabled. *)
Example strict_kernel_build_unfilleted :
  @make_storage Q _ strict_kernel defaults default_groove
  = @make_storage Q _ strict_kernel (with_enable_fillet false defaults)
      default_groove.
Proof. reflexivity. Qed.

(** * Further properties of the script *)

(** ** The path beyond turn 1 *)

(** X1.  Turn 2 is the fifth edge of the path: a spline through the end of
    layer 2, an apex and the start of layer 3, which is where the layer-3
    line starts.  The apex is the end of layer 2 moved back by
    [turn_radius] in travel and up by [turn_radius]; the start of layer 3
    keeps the travel coordinate and is [turn_radius * 2] higher.  The
    tangents are (-1, slope), (0, 1) and (+1, slope). *)
Theorem turn2_geometry :
  (forall (T : Type) (N : Number T) (P : Params T),
     let L := path_layout P in
     let y := layer2_end_y L in
     let z := layer2_end_z L in
     nth_error (wire_edges (make_marble_path P)) 4 = Some (turn2 P)
     /\ option_map (@endPoint T) (nth_error (wire_edges (make_marble_path P)) 3)
        = Some (Some (vec ($0) y z))
     /\ option_map (@startPoint T)
          (nth_error (wire_edges (make_marble_path P)) 5)
        = Some (Some (vec ($0) y (z + turn_radius P * $2)))
     /\ turn2 P
        = makeSpline
            [vec ($0) y z;
             vec ($0) (y - turn_radius P) (z + turn_radius P);
             vec ($0) y (z + turn_radius P * $2)]
            [vec ($0) (- $1) (slope P);
             vec ($0) ($0) ($1);
             vec ($0) ($1) (slope P)])%num
  /\
  (forall P : Params Q,
     let L := path_layout P in
     turn2_apex_y L - layer2_end_y L == - turn_radius P
     /\ turn2_apex_z L - layer2_end_z L == turn_radius P
     /\ layer3_start_y L - layer2_end_y L == 0
     /\ layer3_start_z L - layer2_end_z L == 2 * turn_radius P).
Proof.
  split.
  - intros T N P L y z. repeat split.
  - intros P L. subst L. cbn. repeat split; ring.
Qed.

(** X2.  The path starts at the origin and never leaves the plane x = 0:
    every point that defines it has the integer 0 as first coordinate. *)
Theorem path_in_yz_plane :
  forall (T : Type) (N : Number T) (P : Params T),
    wire_startPoint (make_marble_path P) = Some (vec ($0) ($0) ($0))%num
    /\ Forall (fun v => vx v = ($0)%num) (wire_points (make_marble_path P)).
Proof.
  intros T N P. split; [reflexivity|].
  unfold wire_points, make_marble_path, turn1, turn2. cbn.
  repeat constructor.
Qed.

Lemma inject_Z_pred (m : Z) : inject_Z (m - 1) == inject_Z m - 1.
Proof.
  unfold Z.sub. rewrite inject_Z_plus, inject_Z_opp. reflexivity.
Qed.

(** X3.  In exact arithmetic the layers shorten as documented and the path
    ends where the formulas say: layer 2 is one tube diameter shorter than
    layer 1, layer 3 is layer 2 plus one tube radius, the last point lies
    one tube radius beyond the end of layer 1 in travel, and its height is
    [slope * (6 m - 3) * tube_radius + 4 * turn_radius] for [m] marbles per
    layer. *)
Theorem path_end_closed_form :
  forall P : Params Q,
    let L := path_layout P in
    let m := inject_Z (marbles_per_layer P) in
    layer1_len L - layer2_len L == 2 * tube_radius P
    /\ layer3_len L == layer2_len L + tube_radius P
    /\ layer3_end_y L == layer1_end_y L + tube_radius P
    /\ layer3_end_y L
       == outlet_length P + (2 * m + 1) * tube_radius P
    /\ layer3_end_z L
       == slope P * (6 * m - 3) * tube_radius P + 4 * turn_radius P.
Proof.
  intros P L m. subst L m.
  cbn -[tube_radius turn_radius outlet_length].
  change (inject_Z 2) with 2. change (inject_Z 0) with 0.
  rewrite !inject_Z_pred.
  repeat split; ring.
Qed.

(** X4.  With one marble per layer, layer 2 degenerates: its length and
    height gain are zero, so the line the script asks for between the two
    turns starts and ends at the same point. *)
Theorem single_marble_layer2_degenerate :
  forall P : Params Q,
    marbles_per_layer P = 1%Z ->
    let L := path_layout P in
    layer2_len L == 0 /\ layer2_height L == 0
    /\ layer2_end_y L == layer2_start_y L
    /\ layer2_end_z L == layer2_start_z L
    /\ layer3_len L == tube_radius P.
Proof.
  intros P Hm L. subst L.
  cbn -[tube_radius turn_radius outlet_length].
  rewrite Hm. change (inject_Z (1 - 1)) with 0.
  change (inject_Z 2) with 2. change (inject_Z 1) with 1.
  repeat split; ring.
Qed.

Lemma single_marble_layer2_degenerate_witness :
  let L := path_layout (with_marbles_per_layer 1 (defaults : Params Q)) in
  layer2_len L == 0 /\ layer2_height L == 0
  /\ layer2_end_y L == layer2_start_y L
  /\ layer2_end_z L == layer2_start_z L
  /\ layer3_len L == tube_radius (defaults : Params Q).
Proof.
  exact (single_marble_layer2_degenerate
           (with_marbles_per_layer 1 defaults) eq_refl).
Defined.

(** X5.  The path reads six parameters only: two parameter blocks that
    agree on marble radius, clearance, marbles per layer, slope, turn factor
    and outlet factor give the same wire, whatever the housing and window
    settings. *)
Theorem make_marble_path_reads_track_only :
  forall (T : Type) (N : Number T) (P P' : Params T),
    same_track P P' -> make_marble_path P = make_marble_path P'.
Proof.
  intros T N [mr c m s tf o w ef fr ew wh wm]
         [mr' c' m' s' tf' o' w' ef' fr' ew' wh' wm'].
  unfold same_track. cbn.
  intros (-> & -> & -> & -> & -> & ->). reflexivity.
Qed.

Lemma make_marble_path_reads_track_only_witness :
  make_marble_path (defaults : Params Q)
  = make_marble_path
      (with_enable_fillet false (with_enable_windows false defaults)).
Proof.
  apply (make_marble_path_reads_track_only Q _ defaults
           (with_enable_fillet false (with_enable_windows false defaults))).
  repeat split.
Defined.

(** ** The groove *)

Lemma make_groove_solid_marble_path {T : Type} `{Number T} (P : Params T) :
  make_groove_solid P (make_marble_path P)
  = Some
      (Union
         (Union
            (Clean (Sweep (tube_radius P) (make_marble_path P)))
            (Translate
               (vec ($0) ($0) (- lit 35 100 * tube_radius P))%num
               (Sphere (tube_radius P))))
         (Translate
            (vec ($0)%num (layer3_end_y (path_layout P))
                 (layer3_end_z (path_layout P)))
            (Sphere (tube_radius P)))).
Proof. reflexivity. Qed.

(** X6.  The caps of the groove.  When [make_groove_solid] returns the
    groove of the script's path, it is the cleaned sweep of a circle of the
    tube radius, united with a sphere of that radius centred 0.35 tube radii
    below the origin, where the path starts, and with a sphere of that
    radius centred on the last point of layer 3.  In exact arithmetic and
    for a positive tube radius the lowest point of the first sphere, 1.35
    tube radii below the origin, stays above the underside of the ground
    plate of [make_storage], which is 1.5 tube radii below it. *)
Theorem groove_caps :
  (forall (T : Type) (N : Number T) (P : Params T) (g : Solid T),
     make_groove_solid P (make_marble_path P) = Some g ->
     wire_startPoint (make_marble_path P) = Some (vec ($0) ($0) ($0))%num
     /\ wire_endPoint (make_marble_path P)
        = Some (vec ($0)%num (layer3_end_y (path_layout P))
                    (layer3_end_z (path_layout P)))
     /\ g = Union
              (Union
                 (Clean (Sweep (tube_radius P) (make_marble_path P)))
                 (Translate
                    (vec ($0) ($0) (- lit 35 100 * tube_radius P))%num
                    (Sphere (tube_radius P))))
              (Translate
                 (vec ($0)%num (layer3_end_y (path_layout P))
                      (layer3_end_z (path_layout P)))
                 (Sphere (tube_radius P))))
  /\
  (forall (P : Params Q) (bb : BoundBox Q),
     0 < tube_radius P ->
     exists cap plate,
       bottom_z (Translate (vec 0 0 (- (35 # 100) * tube_radius P))
                   (Sphere (tube_radius P))) = Some cap
       /\ bottom_z (ground_plate P bb) = Some plate
       /\ cap == - (135 # 100) * tube_radius P
       /\ plate == - (15 # 10) * tube_radius P
       /\ plate < cap).
Proof.
  split.
  - intros T N P g Hg. split; [reflexivity|]. split; [reflexivity|].
    rewrite make_groove_solid_marble_path in Hg. injection Hg as <-.
    reflexivity.
  - intros P bb Hr. do 2 eexists.
    split; [reflexivity|]. split; [reflexivity|].
    cbn -[tube_radius]. change (inject_Z 2) with 2.
    set (r := tube_radius P) in *.
    assert (E1 : - (35 # 100) * r - r == - (135 # 100) * r) by ring.
    assert (E2 : - (9 # 10) * r - (12 # 10) * r / 2 == - (15 # 10) * r)
      by field.
    split; [exact E1|]. split; [exact E2|].
    rewrite E1, E2. lra.
Qed.

Lemma groove_caps_witness :
  (exists g, make_groove_solid defaults (make_marble_path defaults) = Some g
             /\ g = default_groove)
  /\ exists cap plate,
       bottom_z (Translate (vec 0 0 (- (35 # 100) * tube_radius defaults))
                   (Sphere (tube_radius (defaults : Params Q)))) = Some cap
       /\ bottom_z (ground_plate defaults sample_bb) = Some plate
       /\ cap == - (135 # 100) * tube_radius defaults
       /\ plate == - (15 # 10) * tube_radius defaults
       /\ plate < cap.
Proof.
  split.
  - exists default_groove. split; [reflexivity|].
    symmetry.
    exact (proj2 (proj2 (proj1 groove_caps Q _ defaults default_groove
                           eq_refl))).
  - apply (proj2 groove_caps defaults sample_bb). reflexivity.
Defined.

(** ** Windows *)

Section WindowFacts.

Context {T : Type} `{Number T} `{Kernel T}.
Variable P : Params T.

Local Open Scope num_scope.

Lemma make_windows_cases :
  make_windows P
  = if fillet_feasible ParallelY (window_fillet_radius P)
         (window_upper_box P)
    then
      if fillet_feasible ParallelY (window_fillet_radius P)
           (window_lower_box P)
      then
        Some
          (Union
             (Union
                (Union
                   (Fillet ParallelY (window_fillet_radius P)
                      (window_upper_box P))
                   (Fillet ParallelY (window_fillet_radius P)
                      (window_lower_box P)))
                (ExtrudedCircle (outlet_length P) $0
                   (turn2_z (window_layout P))
                   (tube_radius P * lit 7 10) (- tube_radius P * $4)))
             (ExtrudedCircle (- turn1_y (window_layout P)) $0
                (turn1_z (window_layout P))
                (tube_radius P * lit 7 10) (- tube_radius P * $4)))
      else None
    else None.
Proof.
  unfold make_windows, fillet, window_fillet_radius, window_upper_box,
    window_lower_box.
  cbv zeta.
  destruct (fillet_feasible ParallelY _ _); [|reflexivity].
  destruct (fillet_feasible ParallelY _ _); reflexivity.
Qed.

Lemma make_windows_refused :
  fillet_feasible ParallelY (window_fillet_radius P)
    (window_upper_box P) = false
  \/ fillet_feasible ParallelY (window_fillet_radius P)
       (window_lower_box P) = false ->
  make_windows P = None.
Proof.
  rewrite make_windows_cases. intros [E|E].
  - rewrite E. reflexivity.
  - rewrite E.
    destruct (fillet_feasible ParallelY _ (window_upper_box P));
      reflexivity.
Qed.

Lemma make_storage_without_its_windows (groove : Solid T) :
  enable_windows P = true -> make_windows P = None ->
  make_storage P groove = None.
Proof.
  intros He Hw. rewrite make_storage_unfold. unfold housing_of.
  rewrite He, Hw. reflexivity.
Qed.

End WindowFacts.

(** X7.  A window fillet that the kernel refuses stops the script.  The two
    fillets of [make_windows] are not guarded: when either is refused,
    [make_windows] fails, [make_storage] fails when windows are enabled, and
    the build fails whether they are enabled or not, because line 279 calls
    [make_windows] in any case. *)
Theorem window_fillet_failure_aborts :
  forall (T : Type) (N : Number T) (K : Kernel T) (P : Params T),
    fillet_feasible ParallelY (window_fillet_radius P)
      (window_upper_box P) = false
    \/ fillet_feasible ParallelY (window_fillet_radius P)
         (window_lower_box P) = false ->
    make_windows P = None
    /\ (enable_windows P = true ->
        forall groove : Solid T, make_storage P groove = None)
    /\ build P = None.
Proof.
  intros T N K P Hr.
  assert (W : make_windows P = None) by (apply make_windows_refused; exact Hr).
  split; [exact W|]. split.
  - intros He groove. apply make_storage_without_its_windows; assumption.
  - unfold build. rewrite W.
    destruct (make_groove_solid P (make_marble_path P)); [|reflexivity].
    destruct (make_storage P s); reflexivity.
Qed.

(** With windows disabled and no fillet feasible the housing is built and
    the build fails all the same. *)
Lemma window_fillet_failure_aborts_witness :
  @make_storage Q _ refusing_kernel (with_enable_windows false defaults)
    default_groove <> None
  /\ @build Q _ refusing_kernel (with_enable_windows false defaults) = None.
Proof.
  split; [discriminate|].
  apply (window_fillet_failure_aborts Q _ refusing_kernel
           (with_enable_windows false defaults)).
  left. reflexivity.
Defined.

(** X8.  The rectangular windows, in exact arithmetic.  The span they are
    laid out on runs from the end of the outlet over layer 1 and one turn
    radius; both windows are 0.8 of that span long and centred on it, so
    that a tenth of the span is left at either end; the upper window is
    centred at half of the total height and the lower one at half the
    height gained on layer 1; both have the same extents and the same
    centre in X and Y, and are rounded with the same radius, 0.1 less than
    half their height. *)
Theorem window_geometry :
  forall P : Params Q,
    let W := window_layout P in
    let span := layer1_len (path_layout P) + turn_radius P in
    w_box_length W == span
    /\ window_length W == (8 # 10) * span
    /\ window_center_y W - window_length W / 2
       == outlet_length P + (1 # 10) * span
    /\ window_center_y W + window_length W / 2
       == outlet_length P + (9 # 10) * span
    /\ window_upper_z W == total_height W / 2
    /\ window_lower_z W == layer1_height (path_layout P) / 2
    /\ box_extents (window_upper_box P) = box_extents (window_lower_box P)
    /\ option_map (fun o => (vx o, vy o)) (box_offset (window_upper_box P))
       = option_map (fun o => (vx o, vy o)) (box_offset (window_lower_box P))
    /\ window_fillet_radius P == window_height W / 2 - (1 # 10).
Proof.
  intros P W span. subst W span.
  cbn -[tube_radius turn_radius outlet_length].
  change (inject_Z 2) with 2. change (inject_Z 5) with 5.
  change (inject_Z 10) with 10.
  repeat split; try reflexivity; field.
Qed.

(** X9.  Where the round ports are, in exact arithmetic.  Both are drawn on
    the plane "XZ", whose normal is -Y.  When [make_windows] returns, its
    last operand is the back port: it starts in the plane through the apex
    of turn 1, is centred at the height of that apex and reaches 4 tube
    radii further in +Y.  The operand before it is the front port: it
    starts at y = -outlet_length, on the far side of the origin from the
    outlet, not where layer 1 starts, is centred 0.2 turn radii below the
    apex of turn 2 and reaches 4 tube radii in +Y.  Both have x = 0 and
    radius 0.7 tube radii. *)
Theorem port_positions :
  forall (K : Kernel Q) (P : Params Q) (w : Solid Q),
    make_windows P = Some w ->
    let L := path_layout P in
    exists rect fo fz fr fd bo bz br bd,
      w = Union (Union rect (ExtrudedCircle fo 0 fz fr fd))
                (ExtrudedCircle bo 0 bz br bd)
      /\ xz_plane_y bo == turn1_apex_y L
      /\ xz_extrude_end bo bd == turn1_apex_y L + 4 * tube_radius P
      /\ bz = turn1_apex_z L
      /\ br == (7 # 10) * tube_radius P
      /\ xz_plane_y fo == - outlet_length P
      /\ xz_extrude_end fo fd == - outlet_length P + 4 * tube_radius P
      /\ fz == turn2_apex_z L - (2 # 10) * turn_radius P
      /\ fr == (7 # 10) * tube_radius P.
Proof.
  intros K P w Hw L. subst L.
  rewrite make_windows_cases in Hw.
  destruct (fillet_feasible ParallelY _ (window_upper_box P));
    [|discriminate Hw].
  destruct (fillet_feasible ParallelY _ (window_lower_box P));
    [|discriminate Hw].
  injection Hw as <-.
  do 9 eexists. split; [reflexivity|].
  unfold xz_plane_y, xz_extrude_end, outlet_length, turn_radius,
    tube_radius.
  cbn.
  change (inject_Z 2) with 2. change (inject_Z 4) with 4.
  repeat match goal with |- _ /\ _ => split end;
    first [ reflexivity | ring ].
Qed.

Lemma port_positions_witness :
  exists rect fo fz fr fd bo bz br bd,
    @make_windows Q _ lenient_kernel defaults
    = Some (Union (Union rect (ExtrudedCircle fo 0 fz fr fd))
                  (ExtrudedCircle bo 0 bz br bd))
    /\ xz_plane_y bo == 165
    /\ xz_extrude_end bo bd == 265
    /\ xz_plane_y fo == - (65 # 2)
    /\ xz_extrude_end fo fd == 135 # 2.
Proof.
  destruct (port_positions lenient_kernel defaults _ eq_refl)
    as (rect & fo & fz & fr & fd & bo & bz & br & bd
        & E & B0 & B1 & _ & _ & F0 & F1 & _).
  exists rect, fo, fz, fr, fd, bo, bz, br, bd.
  split; [exact (f_equal Some E)|].
  split; [rewrite B0; reflexivity|].
  split; [rewrite B1; reflexivity|].
  split; [rewrite F0; reflexivity | rewrite F1; reflexivity].
Defined.

(** X10.  How the two boxes of the housing sit, in exact arithmetic and for
    any bounding box.  Both are centred on the bounding box in X.  In
    travel their far faces coincide, one wall beyond the bounding box, and
    the near face of the upper box is set back by two tube radii from that
    of the ground plate.  The ground plate reaches from -1.5 to -0.3 tube
    radii in height whatever the bounding box; the upper box reaches from
    half a wall below the bounding box to half a wall above it less 1.7
    tube radii. *)
Theorem housing_alignment :
  forall (P : Params Q) (bb : BoundBox Q),
    let H := housing_layout P bb in
    let w := wall_thickness P in
    let r := tube_radius P in
    box_center_x H = ground_center_x H
    /\ box_center_x H == (xmin bb + xmax bb) / 2
    /\ box_center_y H + box_length H / 2 == ymax bb + w
    /\ ground_center_y H + ground_length H / 2 == ymax bb + w
    /\ ground_center_y H - ground_length H / 2 == ymin bb - w
    /\ box_center_y H - box_length H / 2 == ymin bb - w + 2 * r
    /\ ground_center_z H - ground_height H / 2 == - (15 # 10) * r
    /\ ground_center_z H + ground_height H / 2 == - (3 # 10) * r
    /\ box_center_z H - box_height H / 2 == zmin bb - w / 2
    /\ box_center_z H + box_height H / 2
       == zmax bb + w / 2 - (17 # 10) * r.
Proof.
  intros P bb H w r. subst H w r.
  cbn -[tube_radius].
  change (inject_Z 2) with 2.
  repeat split; try reflexivity; field.
Qed.

(** X11.  The parameter [window_margin_factor] is declared and never read:
    changing it changes neither the path, nor the groove, nor the windows,
    nor the housing, nor the outcome of the build. *)
Theorem window_margin_factor_unused :
  forall (T : Type) (N : Number T) (K : Kernel T) (P : Params T) (m : T),
    let P' := with_window_margin_factor m P in
    make_marble_path P' = make_marble_path P
    /\ (forall w, make_groove_solid P' w = make_groove_solid P w)
    /\ make_windows P' = make_windows P
    /\ (forall groove, make_storage P' groove = make_storage P groove)
    /\ build P' = build P.
Proof.
  intros T N K P m P'. subst P'. repeat split.
Qed.

(** X12.  How far the path reaches in travel, in exact arithmetic.  When
    the outlet and the tube radius are not negative, the first layer holds
    at least one marble and the turn radius is at least the tube radius, no
    point that defines the path lies beyond the apex of turn 1, and every
    point other than the apex of turn 2 has a travel coordinate that is not
    negative. *)
Theorem turn1_apex_is_farthest :
  forall P : Params Q,
    0 <= outlet_length P -> 0 <= tube_radius P ->
    tube_radius P <= turn_radius P -> (1 <= marbles_per_layer P)%Z ->
    let L := path_layout P in
    Forall (fun v => vy v <= turn1_apex_y L)
      (wire_points (make_marble_path P))
    /\ Forall (fun v => 0 <= vy v \/ vy v == turn2_apex_y L)
         (wire_points (make_marble_path P)).
Proof.
  intros P Ho Hr Ht Hm L. subst L.
  destruct (layer_lengths_nonneg P Hr Hm) as (L1 & L2 & L3).
  assert (D : layer1_len (path_layout P) - layer2_len (path_layout P)
              == 2 * tube_radius P).
  { cbn -[tube_radius]. change (inject_Z 2) with 2.
    rewrite inject_Z_pred. ring. }
  unfold wire_points, make_marble_path, turn1, turn2.
  cbn -[tube_radius turn_radius outlet_length] in *.
  change (inject_Z 2) with 2 in *. change (inject_Z 0) with 0.
  set (t := turn_radius P) in *.
  set (r := tube_radius P) in *.
  set (o := outlet_length P) in *.
  set (l1 := inject_Z (marbles_per_layer P) * r * 2) in *.
  set (l2 := inject_Z (marbles_per_layer P - 1) * r * 2) in *.
  split.
  - repeat (apply Forall_cons; [cbn [vy]; lra|]). apply Forall_nil.
  - repeat (apply Forall_cons;
            [cbn [vy]; first [ (left; lra) | (right; reflexivity) ]|]).
    apply Forall_nil.
Qed.

Lemma turn1_apex_is_farthest_witness :
  Forall (fun v => vy v <= turn1_apex_y (path_layout defaults))
    (wire_points (make_marble_path (defaults : Params Q)))
  /\ Forall (fun v => 0 <= vy v
                      \/ vy v == turn2_apex_y (path_layout defaults))
       (wire_points (make_marble_path (defaults : Params Q))).
Proof.
  apply (turn1_apex_is_farthest defaults); vm_compute;
    first [ reflexivity | discriminate ].
Defined.
